(** * minitorch.datasets: labelled 2D point generators

    A shallow embedding of [src/minitorch/datasets.py].

    - Python [float] is IEEE 754 binary64; it is modelled by the kernel's
      primitive floats ([PrimFloat.float]), whose operations are binary64
      operations with round-to-nearest-even.  Decimal literals such as
      [0.2] denote the nearest binary64 value, as they do in Python.
    - Python [int] is unbounded; it is modelled by [Z], and [//] by [Z.div]
      (both round towards minus infinity).
    - The process-wide generator behind [random.random()] is an explicit
      state threaded through every generator.
    - Exceptions are values of [exn]; a computation is a state-and-error
      monad [M].  The exceptions modelled are those of the operations the
      module performs: [ZeroDivisionError] and [OverflowError] of
      [float / int], [OverflowError] of a list repetition whose count is
      not index-sized, and [KeyError] of a dictionary lookup.  Exhaustion
      of memory or time is not modelled. *)

From Stdlib Require Import ZArith List Lia Bool.
From Stdlib Require Import Floats.PrimFloat Floats.SpecFloat Floats.FloatOps Floats.FloatAxioms.
From stdpp Require Import base gmap strings.

Set Warnings "-inexact-float".
Local Open Scope Z_scope.

(** ** The Python runtime pieces the module relies on *)

Module Py.

(** The exceptions the module can raise: [/] on a zero divisor, the
    conversion of an [int] that is too large to a [float] or to an index,
    and a failed dictionary lookup. *)
Inductive exn : Set :=
| ZeroDivisionError
| OverflowError
| KeyError.

Inductive result (A : Type) : Type :=
| Ok (a : A)
| Raise (e : exn).
Arguments Ok {A} a.
Arguments Raise {A} e.

(** The first magnitude whose nearest binary64 value is no longer finite:
    half way between the largest finite value [2^1024 - 2^971] and
    [2^1024]; the tie rounds to even, that is up. *)
Definition float_overflow_threshold : Z := 2 ^ 1024 - 2 ^ 970.

(** The correctly rounded binary64 value of an integer. *)
Definition round_int (z : Z) : float :=
  SF2Prim (binary_normalize prec emax z 0 false).

(** [float(i)] for an [int] [i], and the implicit conversion of an [int]
    operand of a [float] operation: [OverflowError] when the rounded
    value would not be finite. *)
Definition float_of_int (z : Z) : result float :=
  if Z.abs z <? float_overflow_threshold then Ok (round_int z)
  else Raise OverflowError.

(** [a / b] for a [float] [a] and an [int] [b]: a zero divisor raises
    [ZeroDivisionError], any other divisor is converted to [float]
    first.  (The interpreter converts and then tests the converted
    divisor against [0.0]; the order is immaterial, since [0] converts
    without overflow and no other integer rounds to zero.) *)
Definition truediv (a : float) (b : Z) : result float :=
  if b =? 0 then Raise ZeroDivisionError
  else match float_of_int b with
       | Raise e => Raise e
       | Ok b' => Ok (a / b')%float
       end.

(** [range(lo, hi)] as the list it iterates over; empty when [hi <= lo]. *)
Definition range (lo hi : Z) : list Z :=
  map (fun k => lo + Z.of_nat k) (seq 0 (Z.to_nat (hi - lo))).

(** The index-sized integers of a 64-bit build: from [-sys.maxsize - 1]
    to [sys.maxsize]. *)
Definition index_min : Z := - 2 ^ 63.
Definition index_max : Z := 2 ^ 63 - 1.

(** [[v] * n]: the count is converted to an index-sized integer first,
    [OverflowError] when it does not fit; then [n] copies of [v], none
    when [n] is negative. *)
Definition list_mul {A : Type} (v : A) (n : Z) : result (list A) :=
  if (index_min <=? n) && (n <=? index_max) then Ok (repeat v (Z.to_nat n))
  else Raise OverflowError.

End Py.
Import Py.

(** ** Computations: generator state and exceptions *)

Section Monad.
Context {S : Type}.

Definition M (A : Type) : Type := S -> result A * S.

Definition ret {A} (a : A) : M A := fun s => (Ok a, s).

Definition bind {A B} (m : M A) (k : A -> M B) : M B :=
  fun s =>
    match m s with
    | (Ok a, s') => k a s'
    | (Raise e, s') => (Raise e, s')
    end.

(** A computation that cannot touch the state. *)
Definition lift {A} (r : result A) : M A := fun s => (r, s).
End Monad.
Arguments M : clear implicits.

Declare Scope py_scope.
Delimit Scope py_scope with py.
Notation "x <- c1 ;; c2" := (bind c1 (fun x => c2))
  (at level 100, c1 at next level, right associativity) : py_scope.

(** A list comprehension [[f(i) for i in l]] whose body may raise: the
    elements are evaluated from left to right and the first exception
    ends the evaluation. *)
Fixpoint comprehension {S A B} (f : A -> M S B) (l : list A) : M S (list B) :=
  match l with
  | [] => ret []
  | a :: l' =>
      (b <- f a ;;
       bs <- comprehension f l' ;;
       ret (b :: bs))%py
  end.

(** A [for p in X: y.append(body(p))] loop started on the list [y0]. *)
Definition for_append {A B} (body : A -> B) (X : list A) (y0 : list B) : list B :=
  fold_left (fun y p => y ++ [body p]) X y0.

(** ** The module *)

Module Datasets.

Definition point : Type := float * float.

(** The dataclass [Graph]. *)
Record Graph : Type := mkGraph {
  N : Z;
  X : list point;
  y : list Z;
}.

(** Instances used in the examples: a three-state generator that cycles
    through [circle_edge], 0.5 and 0.75, and polynomial stand-ins for the
    two trigonometric functions.  [circle_edge] lies at distance
    [sqrt 0.1] to the left of 0.5. *)
Inductive phase : Set := P0 | P1 | P2.

Definition circle_edge : float := (0.5 - sqrt 0.1)%float.

Definition cycle_random (s : phase) : float * phase :=
  match s with
  | P0 => (circle_edge, P1)
  | P1 => (0.5%float, P2)
  | P2 => (0.75%float, P0)
  end.

Definition poly_cos (t : float) : float := (1 - t * t / 2)%float.
Definition poly_sin (t : float) : float := (t - t * t * t / 6)%float.

Section Generators.
(** The state of the process-wide generator and [random.random()]. *)
Variable rng : Type.
Variable random : rng -> float * rng.
(** [math.cos] and [math.sin], as functions of their argument.  (They
    raise on an infinite argument only; that case is not modelled.) *)
Variables cos sin : float -> float.

Definition random_random : M rng float :=
  fun s => let (v, s') := random s in (Ok v, s').

Fixpoint make_pts_loop (k : nat) (X : list point) : M rng (list point) :=
  match k with
  | O => ret X
  | Datatypes.S k' =>
      (x_1 <- random_random ;;
       x_2 <- random_random ;;
       make_pts_loop k' (X ++ [(x_1, x_2)]))%py
  end.

(** [for i in range(N)] runs [max(N, 0)] times. *)
Definition make_pts (N : Z) : M rng (list point) :=
  make_pts_loop (Z.to_nat N) [].

Definition simple (N : Z) : M rng Graph :=
  (X <- make_pts N ;;
   let y := for_append
              (fun '(x_1, x_2) => if (x_1 <? 0.5)%float then 1 else 0) X [] in
   ret (mkGraph N X y))%py.

Definition diag (N : Z) : M rng Graph :=
  (X <- make_pts N ;;
   let y := for_append
              (fun '(x_1, x_2) => if (x_1 <? x_2)%float then 1 else 0) X [] in
   ret (mkGraph N X y))%py.

Definition split (N : Z) : M rng Graph :=
  (X <- make_pts N ;;
   let y := for_append
              (fun '(x_1, x_2) =>
                 if ((x_1 <? 0.2) || (0.8 <? x_1))%float then 1 else 0) X [] in
   ret (mkGraph N X y))%py.

Definition xor (N : Z) : M rng Graph :=
  (X <- make_pts N ;;
   let y := for_append
              (fun '(x_1, x_2) =>
                 if (((x_1 <? 0.5) && (0.5 <? x_2))
                     || ((0.5 <? x_1) && (x_2 <? 0.5)))%float
                 then 1 else 0) X [] in
   ret (mkGraph N X y))%py.

Definition circle (N : Z) : M rng Graph :=
  (X <- make_pts N ;;
   let y := for_append
              (fun '(x_1, x_2) =>
                 let '(x1, x2) := (x_1 - 0.5, x_2 - 0.5)%float in
                 if (0.1 <? x1 * x1 + x2 * x2)%float then 1 else 0) X [] in
   ret (mkGraph N X y))%py.

Definition spiral (N : Z) : M rng Graph :=
  let x (t : float) : float := (t * cos t / 20.0)%float in
  let y (t : float) : float := (t * sin t / 20.0)%float in
  (X <- comprehension
          (fun i =>
             fi <- lift (float_of_int i) ;;
             q <- lift (truediv fi (N / 2)) ;;
             fi' <- lift (float_of_int i) ;;
             q' <- lift (truediv fi' (N / 2)) ;;
             ret (x (10.0 * q) + 0.5, y (10.0 * q') + 0.5)%float)
          (range (5 + 0) (5 + N / 2)) ;;
   X2 <- comprehension
          (fun i =>
             fi <- lift (float_of_int i) ;;
             q <- lift (truediv fi (N / 2)) ;;
             fi' <- lift (float_of_int i) ;;
             q' <- lift (truediv fi' (N / 2)) ;;
             ret (y (-10.0 * q) + 0.5, x (-10.0 * q') + 0.5)%float)
          (range (5 + 0) (5 + N / 2)) ;;
   let X := X ++ X2 in
   l0 <- lift (list_mul 0 (N / 2)) ;;
   l1 <- lift (list_mul 1 (N / 2)) ;;
   let y2 := l0 ++ l1 in
   ret (mkGraph N X y2))%py.

(** The dictionary [datasets]. *)
Definition datasets : gmap string (Z -> M rng Graph) :=
  list_to_map
    [ ("Simple"%string, simple);
      ("Diag"%string, diag);
      ("Split"%string, split);
      ("Xor"%string, xor);
      ("Circle"%string, circle);
      ("Spiral"%string, spiral) ].

(** [datasets[name]]. *)
Definition datasets_getitem (name : string) : result (Z -> M rng Graph) :=
  match datasets !! name with
  | Some f => Ok f
  | None => Raise KeyError
  end.

(** ** Specification-side vocabulary *)

(** A coordinate in the half-open interval from 0 to 1. *)
Definition in_unit (v : float) : Prop :=
  (0 <=? v)%float = true /\ (v <? 1)%float = true.

Definition in_unit_square (p : point) : Prop :=
  in_unit (fst p) /\ in_unit (snd p).

(** Python's [==] on floats. *)
Definition py_eq (a b : float) : Prop := (a =? b)%float = true.

(** The predicate table of the specification, row by row. *)
Definition simple_pred (p : point) : bool :=
  let '(x1, x2) := p in (x1 <? 0.5)%float.

Definition diag_pred (p : point) : bool :=
  let '(x1, x2) := p in (x1 <? x2)%float.

Definition split_pred (p : point) : bool :=
  let '(x1, x2) := p in ((x1 <? 0.2) || (0.8 <? x1))%float.

Definition xor_pred (p : point) : bool :=
  let '(x1, x2) := p in
  (((x1 <? 0.5) && (0.5 <? x2)) || ((0.5 <? x1) && (x2 <? 0.5)))%float.

(** The squared distance to the centre of the unit square. *)
Definition sq_dist (p : point) : float :=
  let '(x1, x2) := p in ((x1 - 0.5) * (x1 - 0.5) + (x2 - 0.5) * (x2 - 0.5))%float.

Definition circle_pred (p : point) : bool := (0.1 <? sq_dist p)%float.

(** The label a predicate gives: 1 when it holds, else 0. *)
Definition label_of (pred : point -> bool) (p : point) : Z :=
  if pred p then 1 else 0.

(** The five generators that sample and then label by a predicate, and
    all six generators. *)
Definition predicate_generators : list (Z -> M rng Graph) :=
  [simple; diag; split; xor; circle].

Definition all_generators : list (Z -> M rng Graph) :=
  predicate_generators ++ [spiral].

(** Each predicate generator with its row of the table. *)
Definition predicate_table : list ((Z -> M rng Graph) * (point -> bool)) :=
  [ (simple, simple_pred); (diag, diag_pred); (split, split_pred);
    (xor, xor_pred); (circle, circle_pred) ].

(** The boundary of each rule: the points where one of its comparisons
    meets equality. *)
Definition boundary_table : list ((Z -> M rng Graph) * (point -> Prop)) :=
  [ (simple, fun p => py_eq (fst p) 0.5);
    (diag, fun p => py_eq (fst p) (snd p));
    (split, fun p => py_eq (fst p) 0.2 \/ py_eq (fst p) 0.8);
    (xor, fun p => py_eq (fst p) 0.5 \/ py_eq (snd p) 0.5);
    (circle, fun p => py_eq (sq_dist p) 0.1) ].

(** The six registered names. *)
Definition registered_names : list string :=
  ["Simple"; "Diag"; "Split"; "Xor"; "Circle"; "Spiral"]%string.

(** The spiral of the specification: [sx], [sy] and the two arms. *)
Definition sx (t : float) : float := (t * cos t / 20)%float.
Definition sy (t : float) : float := (t * sin t / 20)%float.

Definition arm_A (half i : Z) : point :=
  let t := (10 * (round_int i / round_int half))%float in
  (sx t + 0.5, sy t + 0.5)%float.

Definition arm_B (half i : Z) : point :=
  let t := (-10 * (round_int i / round_int half))%float in
  (sy t + 0.5, sx t + 0.5)%float.

(** The points [make_pts] draws, as a pure function of the generator
    state: [k] points, two draws each, and the state left behind. *)
Fixpoint sample (k : nat) (s : rng) : list point * rng :=
  match k with
  | O => ([], s)
  | Datatypes.S k' =>
      let (x_1, s1) := random s in
      let (x_2, s2) := random s1 in
      let (pts, s') := sample k' s2 in
      ((x_1, x_2) :: pts, s')
  end.

(** A computation that neither reads nor writes the generator state. *)
Definition stateless {A} (m : M rng A) : Prop :=
  exists r, forall s, m s = (r, s).

(** The first [k] values the random source produces from a state, in the
    order it produces them, and the state after them. *)
Fixpoint draws (k : nat) (s : rng) : list float * rng :=
  match k with
  | O => ([], s)
  | Datatypes.S k' =>
      let (v, s1) := random s in
      let (vs, s') := draws k' s1 in
      (v :: vs, s')
  end.

(** The coordinates of a list of points, point by point, first
    coordinate first. *)
Definition coordinates (pts : list point) : list float :=
  flat_map (fun p => [fst p; snd p]) pts.

(** What a call produced, leaving the count field out: the points and
    the labels, or the exception. *)
Definition points_and_labels (r : result Graph) : result (list point * list Z) :=
  match r with
  | Ok g => Ok (X g, y g)
  | Raise e => Raise e
  end.

(** ** Checks of the runtime model *)

(** The overflow threshold is where round-to-nearest-even stops giving a
    finite binary64 value. *)
Example threshold_rounds_to_infinity :
  binary_normalize prec emax float_overflow_threshold 0 false
  = S754_infinity false.
Proof. vm_compute. reflexivity. Qed.

Example below_threshold_rounds_to_max :
  binary_normalize prec emax (float_overflow_threshold - 1) 0 false
  = S754_finite false (2 ^ 53 - 1) 971.
Proof. vm_compute. reflexivity. Qed.

Example round_int_exact :
  map round_int [0; 1; 5; -7; 2 ^ 53 + 1]
  = [0; 1; 5; -7; 9007199254740992]%float.
Proof. vm_compute. reflexivity. Qed.

Example truediv_examples :
  truediv 1 4 = Ok 0.25%float /\
  truediv 1 0 = Raise ZeroDivisionError /\
  truediv 5 (2 ^ 1024) = Raise OverflowError.
Proof. repeat split; vm_compute; reflexivity. Qed.

Example range_examples :
  range 5 10 = [5; 6; 7; 8; 9] /\ range 5 5 = [] /\ range 5 3 = [] /\
  list_mul 0 3 = Ok [0; 0; 0] /\ list_mul 0 (-2) = Ok [] /\
  list_mul 0 (2 ^ 63) = Raise OverflowError /\
  list_mul 0 (- 2 ^ 63 - 1) = Raise OverflowError.
Proof. repeat split. Qed.

(** The labelled points the specification lists. *)
Example table_examples :
  label_of simple_pred (0.3, 0.9)%float = 1 /\
  label_of simple_pred (0.7, 0.1)%float = 0 /\
  label_of xor_pred (0.2, 0.8)%float = 1 /\
  label_of xor_pred (0.2, 0.2)%float = 0 /\
  label_of circle_pred (0.5, 0.5)%float = 0 /\
  label_of circle_pred (0, 0)%float = 1.
Proof. repeat split. Qed.

(** ** Lists and loops *)

Lemma for_append_map {A B} (body : A -> B) (l : list A) (y0 : list B) :
  for_append body l y0 = y0 ++ map body l.
Proof.
  unfold for_append. revert y0.
  induction l as [|a l IH]; intros y0; simpl.
  - now rewrite app_nil_r.
  - rewrite IH, <- app_assoc. reflexivity.
Qed.

Lemma range_length lo hi : length (range lo hi) = Z.to_nat (hi - lo).
Proof. unfold range. now rewrite length_map, length_seq. Qed.

Lemma range_empty lo hi : hi <= lo -> range lo hi = [].
Proof.
  intros H. unfold range.
  replace (Z.to_nat (hi - lo)) with 0%nat by lia. reflexivity.
Qed.

Lemma range_cons lo hi : lo < hi -> range lo hi = lo :: range (lo + 1) hi.
Proof.
  intros H. unfold range.
  replace (Z.to_nat (hi - lo)) with (Datatypes.S (Z.to_nat (hi - (lo + 1)))) by lia.
  cbn [seq map]. f_equal; [lia|].
  rewrite <- seq_shift, map_map.
  apply map_ext. intros k. lia.
Qed.

Lemma range_In lo hi i : In i (range lo hi) -> lo <= i < hi.
Proof.
  unfold range. rewrite in_map_iff. intros (k & <- & Hk).
  apply in_seq in Hk. lia.
Qed.

Lemma list_mul_ok {A} (v : A) n :
  index_min <= n -> n <= index_max ->
  list_mul v n = Ok (repeat v (Z.to_nat n)).
Proof.
  intros Hlo Hhi. unfold list_mul.
  destruct (Z.leb_spec index_min n); [|lia].
  destruct (Z.leb_spec n index_max); [reflexivity|lia].
Qed.

Lemma list_mul_overflow {A} (v : A) n :
  n < index_min \/ index_max < n -> list_mul v n = Raise OverflowError.
Proof.
  intros H. unfold list_mul.
  destruct (Z.leb_spec index_min n); [|reflexivity].
  destruct (Z.leb_spec n index_max); [lia|reflexivity].
Qed.

Lemma list_mul_inv {A} (v : A) n l :
  list_mul v n = Ok l -> l = repeat v (Z.to_nat n).
Proof.
  unfold list_mul.
  destruct ((index_min <=? n) && (n <=? index_max)); congruence.
Qed.

Lemma repeat_nonpos {A} (v : A) n : n <= 0 -> repeat v (Z.to_nat n) = [].
Proof. intros H. now replace (Z.to_nat n) with 0%nat by lia. Qed.

Lemma repeat_lookup {A} (v : A) k : forall j,
  (j < k)%nat -> repeat v k !! j = Some v.
Proof.
  induction k as [|k IH]; intros j Hj; [lia|].
  destruct j as [|j]; [reflexivity|]. simpl. apply IH. lia.
Qed.

(** ** Running the computations *)

Lemma bind_ok {A B} (m : M rng A) (k : A -> M rng B) s a s' :
  m s = (Ok a, s') -> bind m k s = k a s'.
Proof. intros H. unfold bind. now rewrite H. Qed.

Lemma bind_raise {A B} (m : M rng A) (k : A -> M rng B) s e s' :
  m s = (Raise e, s') -> bind m k s = (Raise e, s').
Proof. intros H. unfold bind. now rewrite H. Qed.

Lemma bind_inv {A B} (m : M rng A) (k : A -> M rng B) s b s' :
  bind m k s = (Ok b, s') ->
  exists a s1, m s = (Ok a, s1) /\ k a s1 = (Ok b, s').
Proof.
  unfold bind. destruct (m s) as [[a|e] s1]; intros H.
  - now exists a, s1.
  - discriminate.
Qed.

Lemma comprehension_pure {A B} (f : A -> M rng B) (g : A -> B) (l : list A) s :
  (forall a, In a l -> forall s0, f a s0 = (Ok (g a), s0)) ->
  comprehension f l s = (Ok (map g l), s).
Proof.
  induction l as [|a l IH]; intros H; simpl.
  - reflexivity.
  - rewrite (bind_ok _ _ s (g a) s) by (apply H; now left).
    rewrite (bind_ok _ _ s (map g l) s); [reflexivity|].
    apply IH. intros a' Ha'. apply H. now right.
Qed.

Lemma comprehension_length {A B} (f : A -> M rng B) (l : list A) s bs s' :
  comprehension f l s = (Ok bs, s') -> length bs = length l.
Proof.
  revert s bs. induction l as [|a l IH]; intros s bs; simpl.
  - unfold ret. intros [= <- _]. reflexivity.
  - intros H.
    apply bind_inv in H as (b & s1 & _ & H).
    apply bind_inv in H as (bs' & s2 & Hl & H).
    unfold ret in H. injection H as Hb Hs. subst bs s2. simpl. f_equal. eapply IH, Hl.
Qed.

Lemma stateless_ret {A} (a : A) : stateless (ret a).
Proof. now exists (Ok a). Qed.

Lemma stateless_lift {A} (r : result A) : stateless (lift r).
Proof. now exists r. Qed.

Lemma stateless_bind {A B} (m : M rng A) (k : A -> M rng B) :
  stateless m -> (forall a, stateless (k a)) -> stateless (bind m k).
Proof.
  intros [[a|e] Hm] Hk.
  - destruct (Hk a) as [r Hr]. exists r. intros s.
    now rewrite (bind_ok _ _ _ _ _ (Hm s)).
  - exists (Raise e). intros s.
    now rewrite (bind_raise _ _ _ _ _ (Hm s)).
Qed.

Lemma stateless_comprehension {A B} (f : A -> M rng B) (l : list A) :
  (forall a, stateless (f a)) -> stateless (comprehension f l).
Proof.
  intros Hf. induction l as [|a l IH]; simpl.
  - apply stateless_ret.
  - apply stateless_bind; [apply Hf|]. intros b.
    apply stateless_bind; [apply IH|]. intros bs. apply stateless_ret.
Qed.

(** ** The point sampler *)

Lemma make_pts_loop_sample k : forall X0 s,
  make_pts_loop k X0 s = (Ok (X0 ++ fst (sample k s)), snd (sample k s)).
Proof.
  induction k as [|k IH]; intros X0 s; simpl.
  - unfold ret. now rewrite app_nil_r.
  - unfold bind, random_random.
    destruct (random s) as [x_1 s1]. destruct (random s1) as [x_2 s2].
    rewrite IH. destruct (sample k s2) as [pts s']. simpl.
    now rewrite <- app_assoc.
Qed.

Lemma make_pts_sample n s :
  make_pts n s = (Ok (fst (sample (Z.to_nat n) s)), snd (sample (Z.to_nat n) s)).
Proof. unfold make_pts. now rewrite make_pts_loop_sample. Qed.

Lemma sample_length k : forall s, length (fst (sample k s)) = k.
Proof.
  induction k as [|k IH]; intros s; simpl; [reflexivity|].
  destruct (random s) as [x_1 s1]. destruct (random s1) as [x_2 s2].
  specialize (IH s2). destruct (sample k s2) as [pts s']. simpl in *. now f_equal.
Qed.

Lemma sample_in_unit_square k :
  (forall s, in_unit (fst (random s))) ->
  forall s, Forall in_unit_square (fst (sample k s)).
Proof.
  intros Hr. induction k as [|k IH]; intros s; simpl; [constructor|].
  pose proof (Hr s) as H1. destruct (random s) as [x_1 s1].
  pose proof (Hr s1) as H2. destruct (random s1) as [x_2 s2].
  specialize (IH s2). destruct (sample k s2) as [pts s']. simpl in *.
  constructor; [now split|assumption].
Qed.

(** ** The predicate generators in closed form *)

(** Each generator returns the sampled points, labelled by its row of the
    table, and leaves the generator state where the sampler left it. *)
Lemma predicate_table_run gen pred :
  In (gen, pred) predicate_table ->
  forall n s,
    gen n s =
    (Ok (mkGraph n (fst (sample (Z.to_nat n) s))
                 (map (label_of pred) (fst (sample (Z.to_nat n) s)))),
     snd (sample (Z.to_nat n) s)).
Proof.
  unfold predicate_table. simpl.
  intros [H|[H|[H|[H|[H|[]]]]]] n s; injection H as <- <-;
    unfold simple, diag, split, xor, circle;
    rewrite (bind_ok _ _ _ _ _ (make_pts_sample n s));
    unfold ret; rewrite for_append_map; simpl;
    do 3 f_equal; apply map_ext; intros [x1 x2]; reflexivity.
Qed.

Lemma predicate_generators_table gen :
  In gen predicate_generators -> exists pred, In (gen, pred) predicate_table.
Proof.
  unfold predicate_generators, predicate_table. simpl.
  intros [<-|[<-|[<-|[<-|[<-|[]]]]]]; eexists; eauto 10.
Qed.

Lemma label_of_binary pred p : label_of pred p = 0 \/ label_of pred p = 1.
Proof. unfold label_of. destruct (pred p); auto. Qed.

Lemma label_of_one pred p : label_of pred p = 1 <-> pred p = true.
Proof. unfold label_of. destruct (pred p); split; congruence. Qed.

(** ** Shape of the sampled datasets *)

(** C1: for every N >= 0, each of simple, diag, split, xor and circle
    returns a dataset with exactly N points and exactly N labels, every
    label is 0 or 1 and, when the random source only produces values in
    [0,1), both coordinates of every point lie in [0,1); make_pts(N)
    returns a sequence of length exactly N. *)
Theorem C1_predicate_generators_shape :
  (forall s, in_unit (fst (random s))) ->
  forall n, 0 <= n -> forall s,
    (exists pts s',
        make_pts n s = (Ok pts, s') /\
        Z.of_nat (length pts) = n /\ Forall in_unit_square pts) /\
    (forall gen, In gen predicate_generators ->
       exists g s',
         gen n s = (Ok g, s') /\
         Z.of_nat (length (X g)) = n /\
         Z.of_nat (length (y g)) = n /\
         Forall (fun l => l = 0 \/ l = 1) (y g) /\
         Forall in_unit_square (X g)).
Proof.
  intros Hr n Hn s. split.
  - exists (fst (sample (Z.to_nat n) s)), (snd (sample (Z.to_nat n) s)).
    split; [apply make_pts_sample|]. split.
    + rewrite sample_length. lia.
    + now apply sample_in_unit_square.
  - intros gen Hgen.
    destruct (predicate_generators_table gen Hgen) as [pred Hpred].
    eexists _, _. split; [apply (predicate_table_run gen pred Hpred)|].
    simpl. rewrite length_map, sample_length.
    repeat split; try lia.
    + apply List.Forall_forall. intros l Hl.
      apply in_map_iff in Hl as (p & <- & _). apply label_of_binary.
    + now apply sample_in_unit_square.
Qed.

(** ** Labels are the table's predicate applied to the points *)

(** C2: for each of the five predicate generators and every index i,
    labels[i] is the table's predicate applied to points[i] (1 exactly
    when the predicate holds, else 0); re-running the predicate on the
    returned points reproduces the returned labels. *)
Theorem C2_labels_follow_table n s :
  Forall
    (fun '(gen, pred) =>
       exists g s',
         gen n s = (Ok g, s') /\
         (forall i, y g !! i = label_of pred <$> (X g !! i)) /\
         (forall i p l, X g !! i = Some p -> y g !! i = Some l ->
                        (l = 1 <-> pred p = true) /\ (l = 0 <-> pred p = false)) /\
         map (label_of pred) (X g) = y g)
    predicate_table.
Proof.
  apply List.Forall_forall. intros [gen pred] Hin.
  eexists _, _. split; [apply (predicate_table_run gen pred Hin)|].
  simpl. split; [|split].
  - intros i. apply list_lookup_fmap.
  - intros i p l Hp Hl.
    rewrite list_lookup_fmap, Hp in Hl. simpl in Hl. injection Hl as <-.
    unfold label_of. destruct (pred p); repeat split; congruence.
  - reflexivity.
Qed.

(** ** Conversions and division *)

Lemma float_of_int_ok z :
  Z.abs z < float_overflow_threshold -> float_of_int z = Ok (round_int z).
Proof.
  intros H. unfold float_of_int.
  now destruct (Z.ltb_spec (Z.abs z) float_overflow_threshold); [|lia].
Qed.

Lemma float_of_int_overflow z :
  float_overflow_threshold <= Z.abs z -> float_of_int z = Raise OverflowError.
Proof.
  intros H. unfold float_of_int.
  now destruct (Z.ltb_spec (Z.abs z) float_overflow_threshold); [lia|].
Qed.

Lemma float_of_int_cases z :
  float_of_int z = Ok (round_int z) \/ float_of_int z = Raise OverflowError.
Proof.
  unfold float_of_int.
  destruct (Z.abs z <? float_overflow_threshold); auto.
Qed.

Lemma truediv_zero a : truediv a 0 = Raise ZeroDivisionError.
Proof. reflexivity. Qed.

Lemma truediv_ok a b :
  b <> 0 -> Z.abs b < float_overflow_threshold ->
  truediv a b = Ok (a / round_int b)%float.
Proof.
  intros Hb H. unfold truediv.
  destruct (Z.eqb_spec b 0); [contradiction|].
  now rewrite float_of_int_ok.
Qed.

Lemma truediv_overflow a b :
  b <> 0 -> float_overflow_threshold <= Z.abs b ->
  truediv a b = Raise OverflowError.
Proof.
  intros Hb H. unfold truediv.
  destruct (Z.eqb_spec b 0); [contradiction|].
  now rewrite float_of_int_overflow.
Qed.

Lemma comprehension_raises {A B} (f : A -> M rng B) (l : list A) e s :
  (forall a, In a l -> forall s0,
      (exists b, f a s0 = (Ok b, s0)) \/ f a s0 = (Raise e, s0)) ->
  (exists a, In a l /\ forall s0, f a s0 = (Raise e, s0)) ->
  comprehension f l s = (Raise e, s).
Proof.
  induction l as [|a l IH]; intros Hall (a0 & Hin & Hraise); simpl.
  - destruct Hin.
  - destruct (Hall a (or_introl eq_refl) s) as [[b Hb]|Hb].
    + rewrite (bind_ok _ _ _ _ _ Hb).
      apply bind_raise, IH.
      * intros a' Ha'. apply Hall. now right.
      * destruct Hin as [->|Hin]; [|now exists a0].
        rewrite Hraise in Hb. discriminate.
    + now apply bind_raise.
Qed.

(** ** The spiral *)

(** One element of either arm: two conversions and two divisions, then
    the closed form [mk] of the point. *)
Lemma spiral_body_ok (mk : float -> float -> point) half i (s0 : rng) :
  Z.abs i < float_overflow_threshold ->
  half <> 0 -> Z.abs half < float_overflow_threshold ->
  (fi <- lift (float_of_int i) ;;
   q <- lift (truediv fi half) ;;
   fi' <- lift (float_of_int i) ;;
   q' <- lift (truediv fi' half) ;;
   ret (mk q q'))%py s0
  = (Ok (mk (round_int i / round_int half) (round_int i / round_int half))%float, s0).
Proof.
  intros Hi Hh0 Hh. unfold bind, lift, ret.
  rewrite (float_of_int_ok i Hi).
  now rewrite (truediv_ok _ half Hh0 Hh).
Qed.

Lemma spiral_body_cases (mk : float -> float -> point) half i (s0 : rng) :
  half <> 0 ->
  let body :=
    (fi <- lift (float_of_int i) ;;
     q <- lift (truediv fi half) ;;
     fi' <- lift (float_of_int i) ;;
     q' <- lift (truediv fi' half) ;;
     ret (mk q q'))%py in
  (exists b, body s0 = (Ok b, s0)) \/ body s0 = (Raise OverflowError, s0).
Proof.
  intros Hh0 body. subst body. unfold bind, lift, ret.
  destruct (float_of_int_cases i) as [-> | ->]; [|now right].
  unfold truediv. destruct (Z.eqb_spec half 0); [contradiction|].
  destruct (float_of_int_cases half) as [-> | ->]; [left; eauto|now right].
Qed.

Lemma spiral_body_overflow (mk : float -> float -> point) half i (s0 : rng) :
  half <> 0 ->
  float_overflow_threshold <= Z.abs i \/ float_overflow_threshold <= Z.abs half ->
  (fi <- lift (float_of_int i) ;;
   q <- lift (truediv fi half) ;;
   fi' <- lift (float_of_int i) ;;
   q' <- lift (truediv fi' half) ;;
   ret (mk q q'))%py s0
  = (Raise OverflowError, s0).
Proof.
  intros Hh0 H. unfold bind, lift, ret.
  destruct (float_of_int_cases i) as [Hi | ->]; [|reflexivity].
  rewrite Hi. destruct H as [H|H].
  - rewrite (float_of_int_overflow i H) in Hi. discriminate.
  - now rewrite (truediv_overflow _ half Hh0 H).
Qed.

Lemma threshold_above_five : 5 < float_overflow_threshold.
Proof. reflexivity. Qed.

Lemma index_bounds :
  index_min < 0 /\ 0 < index_max /\
  index_max + 4 < float_overflow_threshold.
Proof. repeat split; reflexivity. Qed.

(** Within the range of [float], the two arms are in closed form; what
    is left to run is the two list repetitions. *)
Lemma spiral_arms_run n s :
  n / 2 + 4 < float_overflow_threshold ->
  spiral n s =
  (l0 <- lift (list_mul 0 (n / 2)) ;;
   l1 <- lift (list_mul 1 (n / 2)) ;;
   ret (mkGraph n
          (map (arm_A (n / 2)) (range 5 (5 + n / 2))
           ++ map (arm_B (n / 2)) (range 5 (5 + n / 2)))
          (l0 ++ l1)))%py s.
Proof.
  intros Hn. unfold spiral.
  pose proof threshold_above_five as H5.
  assert (Hbody : forall i, In i (range 5 (5 + n / 2)) ->
            Z.abs i < float_overflow_threshold /\ n / 2 <> 0 /\
            Z.abs (n / 2) < float_overflow_threshold).
  { intros i Hi. apply range_In in Hi. lia. }
  change (5 + 0) with 5.
  erewrite bind_ok; cycle 1.
  { apply comprehension_pure with (g := arm_A (n / 2)).
    intros i Hi s0. destruct (Hbody i Hi) as (Hi1 & Hh0 & Hh).
    apply (spiral_body_ok
             (fun q q' => ((10 * q * cos (10 * q) / 20 + 0.5)%float,
                           (10 * q' * sin (10 * q') / 20 + 0.5)%float)));
      assumption. }
  erewrite bind_ok; cycle 1.
  { apply comprehension_pure with (g := arm_B (n / 2)).
    intros i Hi s0. destruct (Hbody i Hi) as (Hi1 & Hh0 & Hh).
    apply (spiral_body_ok
             (fun q q' => ((-10 * q * sin (-10 * q) / 20 + 0.5)%float,
                           (-10 * q' * cos (-10 * q') / 20 + 0.5)%float)));
      assumption. }
  reflexivity.
Qed.

(** With an index-sized [N // 2], the spiral is its two arms and its two
    runs of labels, and the generator state is untouched. *)
Lemma spiral_run n s :
  index_min <= n / 2 -> n / 2 <= index_max ->
  spiral n s =
  (Ok (mkGraph n
         (map (arm_A (n / 2)) (range 5 (5 + n / 2))
          ++ map (arm_B (n / 2)) (range 5 (5 + n / 2)))
         (repeat 0 (Z.to_nat (n / 2)) ++ repeat 1 (Z.to_nat (n / 2)))),
   s).
Proof.
  intros Hlo Hhi. destruct index_bounds as (_ & _ & Hb).
  rewrite spiral_arms_run by lia.
  unfold bind, lift, ret. now rewrite !list_mul_ok.
Qed.

(** Beyond the range of [float], the first integer that does not fit
    raises. *)
Lemma spiral_overflow n s :
  1 <= n / 2 -> float_overflow_threshold <= n / 2 + 4 ->
  spiral n s = (Raise OverflowError, s).
Proof.
  intros H1 Hn. unfold spiral.
  change (5 + 0) with 5.
  apply bind_raise, comprehension_raises.
  - intros i _ s0. apply spiral_body_cases. lia.
  - exists (n / 2 + 4). split.
    + unfold range. apply in_map_iff. exists (Z.to_nat (n / 2 - 1)).
      split; [lia|]. apply in_seq. lia.
    + intros s0. apply spiral_body_overflow; lia.
Qed.

(** A count [N // 2] that is not index-sized raises, in the conversions
    to [float] or else in the first list repetition. *)
Lemma spiral_index_overflow n s :
  n / 2 < index_min \/ index_max < n / 2 ->
  spiral n s = (Raise OverflowError, s).
Proof.
  intros H. destruct index_bounds as (Hmin & Hmax & _).
  destruct (Z_lt_le_dec (n / 2 + 4) float_overflow_threshold) as [Hlt|Hge].
  - rewrite spiral_arms_run by assumption.
    unfold bind, lift. now rewrite list_mul_overflow.
  - apply spiral_overflow; [|assumption].
    pose proof threshold_above_five. lia.
Qed.

Lemma lift_ok_inv {A} (r : result A) (s : rng) a s' :
  lift r s = (Ok a, s') -> r = Ok a /\ s' = s.
Proof. unfold lift. intros [= -> ->]. now split. Qed.

(** Whenever the spiral returns, its labels are the two runs, it has as
    many points as labels, [2 * max(N // 2, 0)] of each, and it stores
    [N]. *)
Lemma spiral_ok_labels n s g s' :
  spiral n s = (Ok g, s') ->
  y g = repeat 0 (Z.to_nat (n / 2)) ++ repeat 1 (Z.to_nat (n / 2)).
Proof.
  unfold spiral. intros H.
  apply bind_inv in H as (XA & s1 & _ & H).
  apply bind_inv in H as (XB & s2 & _ & H).
  apply bind_inv in H as (l0 & s3 & H0 & H).
  apply bind_inv in H as (l1 & s4 & H1 & H).
  apply lift_ok_inv in H0 as [H0 _], H1 as [H1 _].
  apply list_mul_inv in H0, H1. subst l0 l1.
  unfold ret in H. now injection H as <- _.
Qed.

Lemma spiral_ok_shape n s g s' :
  spiral n s = (Ok g, s') ->
  N g = n /\
  length (X g) = (2 * Z.to_nat (n / 2))%nat /\
  length (y g) = (2 * Z.to_nat (n / 2))%nat.
Proof.
  intros H. pose proof (spiral_ok_labels _ _ _ _ H) as Hy.
  revert H. unfold spiral. change (5 + 0) with 5. intros H.
  apply bind_inv in H as (XA & s1 & HA & H).
  apply bind_inv in H as (XB & s2 & HB & H).
  apply bind_inv in H as (l0 & s3 & _ & H).
  apply bind_inv in H as (l1 & s4 & _ & H).
  unfold ret in H. injection H as <- _. simpl in *.
  apply comprehension_length in HA, HB.
  rewrite range_length in HA, HB.
  rewrite Hy, !length_app, !repeat_length, HA, HB.
  repeat split; lia.
Qed.

Lemma spiral_stateless n : stateless (spiral n).
Proof.
  unfold spiral.
  apply stateless_bind.
  { apply stateless_comprehension. intros i.
    repeat (apply stateless_bind; [apply stateless_lift|intros ?]).
    apply stateless_ret. }
  intros XA. apply stateless_bind.
  { apply stateless_comprehension. intros i.
    repeat (apply stateless_bind; [apply stateless_lift|intros ?]).
    apply stateless_ret. }
  intros XB.
  repeat (apply stateless_bind; [apply stateless_lift|intros ?]).
  apply stateless_ret.
Qed.

(** C3 (amended): for every N >= 0 whose half N // 2 is index-sized
    (at most 2^63 - 1, so that the list repetitions accept it and every
    converted integer is within the range of [float]), spiral(N) returns
    exactly 2 * half points, half = N // 2: the first half are arm A for
    i in [5, 5 + half), the next half are arm B for the same i, and the
    labels are half zeros followed by half ones.  For N = 10 the count is
    10 with labels [0,0,0,0,0,1,1,1,1,1]; for N = 11 the count is 10 with
    the same labels. *)
Theorem C3_spiral_arms :
  (forall n s,
     0 <= n -> n / 2 <= index_max ->
     let half := n / 2 in
     exists g,
       spiral n s = (Ok g, s) /\
       take (Z.to_nat half) (X g) = map (arm_A half) (range 5 (5 + half)) /\
       drop (Z.to_nat half) (X g) = map (arm_B half) (range 5 (5 + half)) /\
       y g = repeat 0 (Z.to_nat half) ++ repeat 1 (Z.to_nat half) /\
       Z.of_nat (length (X g)) = 2 * half /\
       Z.of_nat (length (y g)) = 2 * half) /\
  (forall s, exists g,
     spiral 10 s = (Ok g, s) /\ 10 / 2 = 5 /\
     length (X g) = 10%nat /\ y g = [0; 0; 0; 0; 0; 1; 1; 1; 1; 1]) /\
  (forall s, exists g,
     spiral 11 s = (Ok g, s) /\ 11 / 2 = 5 /\
     length (X g) = 10%nat /\ y g = [0; 0; 0; 0; 0; 1; 1; 1; 1; 1]).
Proof.
  destruct index_bounds as (Hmin & _ & _).
  split; [|split].
  - intros n s Hn Hb half. subst half.
    assert (Hh : 0 <= n / 2) by (apply Z.div_pos; lia).
    eexists. split; [apply (spiral_run n s); lia|]. simpl.
    assert (HA : length (map (arm_A (n / 2)) (range 5 (5 + n / 2)))
                 = Z.to_nat (n / 2)).
    { rewrite length_map, range_length. f_equal. lia. }
    assert (HB : length (map (arm_B (n / 2)) (range 5 (5 + n / 2)))
                 = Z.to_nat (n / 2)).
    { rewrite length_map, range_length. f_equal. lia. }
    repeat split.
    + now apply take_app_length'.
    + now apply drop_app_length'.
    + rewrite length_app, HA, HB. lia.
    + rewrite length_app, !repeat_length. lia.
  - intros s. eexists.
    split; [apply spiral_run; apply Z.leb_le; reflexivity|].
    repeat split.
  - intros s. eexists.
    split; [apply spiral_run; apply Z.leb_le; reflexivity|].
    repeat split.
Qed.

(** ** The stored count *)

(** C4 (amended): every dataset returned by any of the six generators
    has as many points as labels; for N >= 0 this common length equals
    the stored count N for the five predicate generators, while for
    spiral it is 2 * (N // 2) with the stored count still N, so that for
    odd N the stored count exceeds the produced size by one. *)
Theorem C4_count_invariant n s :
  (forall gen, In gen all_generators ->
     forall g s', gen n s = (Ok g, s') ->
       N g = n /\ length (X g) = length (y g)) /\
  (0 <= n ->
     (forall gen, In gen predicate_generators ->
        exists g s',
          gen n s = (Ok g, s') /\ Z.of_nat (length (X g)) = N g) /\
     (forall g s', spiral n s = (Ok g, s') ->
        Z.of_nat (length (X g)) = 2 * (n / 2) /\
        (Z.odd n = true -> N g = Z.of_nat (length (X g)) + 1))).
Proof.
  split; [|intros Hn; split].
  - intros gen Hgen g s' Hrun.
    apply in_app_or in Hgen as [Hgen|[<-|[]]].
    + destruct (predicate_generators_table gen Hgen) as [pred Hpred].
      rewrite (predicate_table_run gen pred Hpred) in Hrun.
      injection Hrun as <- _. simpl. now rewrite length_map.
    + apply spiral_ok_shape in Hrun as (? & -> & ->). now split.
  - intros gen Hgen.
    destruct (predicate_generators_table gen Hgen) as [pred Hpred].
    eexists _, _. split; [apply (predicate_table_run gen pred Hpred)|].
    simpl. rewrite sample_length. lia.
  - intros g s' Hrun.
    apply spiral_ok_shape in Hrun as (HN & HX & _).
    assert (Hh : 0 <= n / 2) by (apply Z.div_pos; lia).
    rewrite HX, HN. split; [lia|].
    intros Hodd. rewrite (Z.div_mod n 2) at 1 by lia.
    rewrite Zmod_odd, Hodd. lia.
Qed.

(** ** Empty and degenerate requests *)

(** C6: for N = 0 every one of the six generators returns a dataset
    with 0 points and 0 labels; for spiral, half = 0 // 2 = 0 and both
    arms range over the empty interval. *)
Theorem C6_zero_is_empty s :
  Forall (fun gen => gen 0 s = (Ok (mkGraph 0 [] []), s)) all_generators /\
  0 / 2 = 0 /\ range (5 + 0) (5 + 0 / 2) = [].
Proof.
  split; [|split; reflexivity].
  repeat constructor.
Qed.

(** C7: spiral is a deterministic function of N alone: there is one
    outcome that every call of spiral(N) produces, whatever the state of
    the random source, and the call leaves that state as it found it. *)
Theorem C7_spiral_deterministic n :
  (exists r, forall s, spiral n s = (r, s)) /\
  (forall s1 s2, fst (spiral n s1) = fst (spiral n s2)).
Proof.
  destruct (spiral_stateless n) as [r Hr]. split.
  - now exists r.
  - intros s1 s2. now rewrite !Hr.
Qed.

(** C8 (amended): for every negative N each of the five predicate
    generators returns normally, and so does spiral when N // 2 is
    index-sized (at least -2^63): the Graph has no points and no labels,
    and its count field stores the negative N unchanged.  Below that,
    spiral raises OverflowError in its first list repetition. *)
Theorem C8_negative_is_empty n s :
  n < 0 ->
  Forall (fun gen => gen n s = (Ok (mkGraph n [] []), s)) predicate_generators /\
  (index_min <= n / 2 -> spiral n s = (Ok (mkGraph n [] []), s)) /\
  (n / 2 < index_min -> spiral n s = (Raise OverflowError, s)) /\
  n / 2 < 0 /\ range (5 + 0) (5 + n / 2) = [] /\
  (index_min <= n / 2 ->
   list_mul 0 (n / 2) = Ok [] /\ list_mul 1 (n / 2) = Ok []).
Proof.
  intros Hn. destruct index_bounds as (_ & Hmax & _).
  assert (Hh : n / 2 < 0) by (apply Z.div_lt_upper_bound; lia).
  split; [|split; [|split; [|split; [|split]]]].
  - apply List.Forall_forall. intros gen Hgen.
    destruct (predicate_generators_table gen Hgen) as [pred Hpred].
    rewrite (predicate_table_run gen pred Hpred).
    now replace (Z.to_nat n) with 0%nat by lia.
  - intros Hlo. rewrite spiral_run by lia.
    rewrite range_empty, !repeat_nonpos by lia. reflexivity.
  - intros Hlo. apply spiral_index_overflow. now left.
  - assumption.
  - apply range_empty. lia.
  - intros Hlo. rewrite !list_mul_ok, !repeat_nonpos by lia. now split.
Qed.

(** C9: for N = 0 and N = 1 the divisor N // 2 is 0 and dividing by it
    would raise, but both arms iterate over the empty range [5, 5), so
    the division is never evaluated and spiral returns an empty dataset. *)
Theorem C9_spiral_no_division_by_zero s :
  Forall
    (fun n =>
       n / 2 = 0 /\
       (forall a, truediv a (n / 2) = Raise ZeroDivisionError) /\
       range (5 + 0) (5 + n / 2) = [] /\
       spiral n s = (Ok (mkGraph n [] []), s))
    [0; 1].
Proof. repeat constructor. Qed.

(** ** Comparisons at equality *)

Lemma SFcompare_Eq_sym f1 f2 :
  SFcompare f1 f2 = Some Eq -> SFcompare f2 f1 = Some Eq.
Proof.
  destruct f1 as [s1|s1| |s1 m1 e1], f2 as [s2|s2| |s2 m2 e2]; simpl;
    try discriminate; try reflexivity;
    try (destruct s1; discriminate); try (destruct s2; discriminate).
  - destruct s1, s2; try discriminate; reflexivity.
  - destruct s1, s2; try discriminate;
      (destruct (Z.compare_spec e1 e2) as [->| |]; try discriminate;
       rewrite Z.compare_refl;
       change (PosDef.Pos.compare_cont Eq m1 m2) with (Pos.compare m1 m2);
       change (PosDef.Pos.compare_cont Eq m2 m1) with (Pos.compare m2 m1);
       destruct (Pos.compare_spec m1 m2) as [->| |]; try discriminate;
       now rewrite Pos.compare_refl).
Qed.

Lemma py_eq_not_lt a b : py_eq a b -> (a <? b)%float = false.
Proof.
  unfold py_eq. rewrite FloatAxioms.eqb_spec, FloatAxioms.ltb_spec. unfold SFeqb, SFltb.
  destruct (SFcompare (Prim2SF a) (Prim2SF b)) as [[]|]; congruence.
Qed.

Lemma py_eq_not_gt a b : py_eq a b -> (b <? a)%float = false.
Proof.
  unfold py_eq. rewrite FloatAxioms.eqb_spec, FloatAxioms.ltb_spec. unfold SFeqb, SFltb.
  destruct (SFcompare (Prim2SF a) (Prim2SF b)) as [[]|] eqn:E;
    try discriminate.
  intros _. now rewrite (SFcompare_Eq_sym _ _ E).
Qed.

Lemma SFcompare_Eq_finite f s m e :
  SFcompare f (S754_finite s m e) = Some Eq -> f = S754_finite s m e.
Proof.
  destruct f as [s1|s1| |s1 m1 e1]; simpl;
    try discriminate; try (destruct s; discriminate);
    try (destruct s1; discriminate).
  destruct s1, s; try discriminate;
    (destruct (Z.compare_spec e1 e) as [->| |]; try discriminate;
     change (PosDef.Pos.compare_cont Eq m1 m) with (Pos.compare m1 m);
     destruct (Pos.compare_spec m1 m) as [->| |]; try discriminate;
     reflexivity).
Qed.

(** A float that equals a finite nonzero constant compares like it. *)
Lemma py_eq_finite a c s m e :
  Prim2SF c = S754_finite s m e -> py_eq a c -> Prim2SF a = Prim2SF c.
Proof.
  unfold py_eq. rewrite FloatAxioms.eqb_spec. unfold SFeqb. intros Hc. rewrite Hc.
  destruct (SFcompare (Prim2SF a) (S754_finite s m e)) as [[]|] eqn:E;
    try discriminate.
  intros _. now apply SFcompare_Eq_finite.
Qed.

Lemma py_eq_ltb_r a b c s m e :
  Prim2SF c = S754_finite s m e -> py_eq a c ->
  (b <? a)%float = (b <? c)%float.
Proof.
  intros Hc H. rewrite !FloatAxioms.ltb_spec. now rewrite (py_eq_finite a c s m e Hc H).
Qed.

Lemma py_eq_ltb_l a b c s m e :
  Prim2SF c = S754_finite s m e -> py_eq a c ->
  (a <? b)%float = (c <? b)%float.
Proof.
  intros Hc H. rewrite !FloatAxioms.ltb_spec. now rewrite (py_eq_finite a c s m e Hc H).
Qed.

(** On its boundary every rule's predicate is false. *)
Lemma boundary_table_pred gen on_boundary :
  In (gen, on_boundary) boundary_table ->
  exists pred,
    In (gen, pred) predicate_table /\
    forall p, on_boundary p -> pred p = false.
Proof.
  unfold boundary_table. simpl.
  intros [H|[H|[H|[H|[H|[]]]]]]; injection H as <- <-.
  - exists simple_pred. split; [unfold predicate_table; simpl; auto|].
    intros [x1 x2] H. simpl in *. now apply py_eq_not_lt.
  - exists diag_pred. split; [unfold predicate_table; simpl; auto|].
    intros [x1 x2] H. simpl in *. now apply py_eq_not_lt.
  - exists split_pred. split; [unfold predicate_table; simpl; auto 6|].
    intros [x1 x2] [H|H]; simpl in *.
    + rewrite (py_eq_not_lt _ _ H).
      now rewrite (py_eq_ltb_r x1 0.8 0.2 _ _ _ eq_refl H).
    + rewrite (py_eq_not_gt _ _ H).
      now rewrite (py_eq_ltb_l x1 0.2 0.8 _ _ _ eq_refl H).
  - exists xor_pred. split; [unfold predicate_table; simpl; auto 6|].
    intros [x1 x2] [H|H]; simpl in *;
      rewrite (py_eq_not_lt _ _ H), (py_eq_not_gt _ _ H);
      now rewrite ?andb_false_r.
  - exists circle_pred. split; [unfold predicate_table; simpl; auto 8|].
    intros p H. unfold circle_pred. now apply py_eq_not_gt.
Qed.

(** ** Boundary points *)

(** C10: the comparisons are strict, so a sampled point lying exactly on
    a rule's boundary (simple: x1 = 0.5; diag: x1 = x2; split: x1 = 0.2
    or x1 = 0.8; xor: x1 = 0.5 or x2 = 0.5; circle: squared distance to
    the centre = 0.1) receives label 0. *)
Theorem C10_boundary_points_get_zero n s :
  Forall
    (fun '(gen, on_boundary) =>
       exists g s',
         gen n s = (Ok g, s') /\
         forall i p, X g !! i = Some p -> on_boundary p -> y g !! i = Some 0)
    boundary_table.
Proof.
  apply List.Forall_forall. intros [gen on_boundary] Hin.
  destruct (boundary_table_pred gen on_boundary Hin) as (pred & Hpred & Hb).
  eexists _, _. split; [apply (predicate_table_run gen pred Hpred)|].
  simpl. intros i p Hp Hon.
  rewrite list_lookup_fmap, Hp. simpl.
  unfold label_of. now rewrite (Hb p Hon).
Qed.

(** ** The registry *)

Lemma datasets_dom : dom datasets = list_to_set registered_names.
Proof. unfold datasets. now rewrite dom_list_to_map_L. Qed.

Lemma datasets_unregistered name :
  name ∉ registered_names -> datasets !! name = None.
Proof.
  intros H. unfold datasets. now apply not_elem_of_list_to_map_1.
Qed.

(** C5: the registry holds exactly the six names Simple, Diag, Split,
    Xor, Circle and Spiral, each bound to its generator, and looking up
    any other name (Unknown, say) raises a not-found error. *)
Theorem C5_registry :
  dom datasets = list_to_set registered_names /\
  datasets_getitem "Simple" = Ok simple /\
  datasets_getitem "Diag" = Ok diag /\
  datasets_getitem "Split" = Ok split /\
  datasets_getitem "Xor" = Ok xor /\
  datasets_getitem "Circle" = Ok circle /\
  datasets_getitem "Spiral" = Ok spiral /\
  (forall name, name ∉ registered_names ->
                datasets_getitem name = Raise KeyError) /\
  datasets_getitem "Unknown" = Raise KeyError.
Proof.
  split; [apply datasets_dom|].
  repeat (split; [reflexivity|]).
  split; [|reflexivity].
  intros name H. unfold datasets_getitem.
  now rewrite (datasets_unregistered name H).
Qed.

(** ** The sampler and the random stream *)

Lemma draws_length k : forall s, length (fst (draws k s)) = k.
Proof.
  induction k as [|k IH]; intros s; simpl; [reflexivity|].
  destruct (random s) as [v s1]. specialize (IH s1).
  destruct (draws k s1) as [vs s']. simpl in *. now f_equal.
Qed.

Lemma sample_draws k : forall s,
  coordinates (fst (sample k s)) = fst (draws (2 * k) s) /\
  snd (sample k s) = snd (draws (2 * k) s).
Proof.
  induction k as [|k IH]; intros s; [now split|].
  replace (2 * Datatypes.S k)%nat with (Datatypes.S (Datatypes.S (2 * k))) by lia.
  set (m := (2 * k)%nat) in *. simpl.
  destruct (random s) as [x_1 s1]. destruct (random s1) as [x_2 s2].
  destruct (IH s2) as [IH1 IH2].
  destruct (sample k s2) as [pts s']. destruct (draws m s2) as [vs s''].
  unfold coordinates in *. simpl in *. split; congruence.
Qed.

Lemma coordinates_lookup pts : forall i p,
  pts !! i = Some p ->
  coordinates pts !! (2 * i)%nat = Some (fst p) /\
  coordinates pts !! (2 * i + 1)%nat = Some (snd p).
Proof.
  induction pts as [|q pts IH]; intros i p Hp; [discriminate|].
  destruct i as [|i].
  - injection Hp as ->. now split.
  - replace (2 * Datatypes.S i)%nat with (Datatypes.S (Datatypes.S (2 * i))) by lia.
    apply (IH i p Hp).
Qed.

Lemma sample_add k1 : forall k2 s,
  sample (k1 + k2) s =
  (fst (sample k1 s) ++ fst (sample k2 (snd (sample k1 s))),
   snd (sample k2 (snd (sample k1 s)))).
Proof.
  induction k1 as [|k1 IH]; intros k2 s; simpl.
  - now destruct (sample k2 s).
  - destruct (random s) as [x_1 s1]. destruct (random s1) as [x_2 s2].
    rewrite IH. now destruct (sample k1 s2).
Qed.

(** X1: make_pts(N) draws exactly 2 * max(N, 0) values from the random
    source and nothing else: point i holds draw 2i as its first
    coordinate and draw 2i + 1 as its second, and the source is left in
    the state after those draws. *)
Theorem X1_make_pts_draw_order n s :
  exists pts s',
    make_pts n s = (Ok pts, s') /\
    coordinates pts = fst (draws (2 * Z.to_nat n) s) /\
    s' = snd (draws (2 * Z.to_nat n) s) /\
    forall i p, pts !! i = Some p ->
      fst (draws (2 * Z.to_nat n) s) !! (2 * i)%nat = Some (fst p) /\
      fst (draws (2 * Z.to_nat n) s) !! (2 * i + 1)%nat = Some (snd p).
Proof.
  destruct (sample_draws (Z.to_nat n) s) as [Hc Hs].
  eexists _, _. split; [apply make_pts_sample|].
  split; [exact Hc|]. split; [exact Hs|].
  intros i p Hp. rewrite <- Hc. now apply coordinates_lookup.
Qed.

(** X2: labelling draws no random value: from one state of the random
    source, simple, diag, split, xor and circle all return the very
    points make_pts returns and leave the source in the same state. *)
Theorem X2_generators_share_points n s :
  exists pts s',
    make_pts n s = (Ok pts, s') /\
    Forall
      (fun gen => exists labels, gen n s = (Ok (mkGraph n pts labels), s'))
      predicate_generators.
Proof.
  eexists _, _. split; [apply make_pts_sample|].
  apply List.Forall_forall. intros gen Hgen.
  destruct (predicate_generators_table gen Hgen) as [pred Hpred].
  eexists. apply (predicate_table_run gen pred Hpred).
Qed.

(** X3: sampling composes: for a, b >= 0, make_pts(a) followed by
    make_pts(b) returns, concatenated, the points of one call
    make_pts(a + b), and ends in the same state; so make_pts(a) is a
    prefix of make_pts(a + b). *)
Theorem X3_make_pts_additive a b s :
  0 <= a -> 0 <= b ->
  exists pa s1 pb s2,
    make_pts a s = (Ok pa, s1) /\
    make_pts b s1 = (Ok pb, s2) /\
    make_pts (a + b) s = (Ok (pa ++ pb), s2).
Proof.
  intros Ha Hb.
  eexists _, _, _, _.
  split; [apply make_pts_sample|]. split; [apply make_pts_sample|].
  rewrite make_pts_sample, Z2Nat.inj_add, sample_add by assumption.
  reflexivity.
Qed.

(** ** More on the spiral *)

Lemma range_lookup lo hi j :
  (j < Z.to_nat (hi - lo))%nat -> range lo hi !! j = Some (lo + Z.of_nat j).
Proof.
  intros Hj. unfold range.
  rewrite list_lookup_fmap, lookup_seq_lt by assumption. reflexivity.
Qed.

(** X4: spiral(N) has two outcomes only.  When N // 2 is index-sized
    (from -2^63 to 2^63 - 1) it returns a dataset and leaves the random
    source untouched; otherwise it raises OverflowError, in a conversion
    to float or in the first list repetition.  It never raises
    ZeroDivisionError, for any N. *)
Theorem X4_spiral_outcomes n s :
  ((index_min <= n / 2 <= index_max /\
    exists g, spiral n s = (Ok g, s)) \/
   ((n / 2 < index_min \/ index_max < n / 2) /\
    spiral n s = (Raise OverflowError, s))) /\
  fst (spiral n s) <> Raise ZeroDivisionError.
Proof.
  destruct (Z_lt_le_dec (n / 2) index_min) as [Hlo|Hlo];
    [|destruct (Z_lt_le_dec index_max (n / 2)) as [Hhi|Hhi]].
  - rewrite (spiral_index_overflow n s) by now left.
    split; [|discriminate]. right. split; [now left|reflexivity].
  - rewrite (spiral_index_overflow n s) by now right.
    split; [|discriminate]. right. split; [now right|reflexivity].
  - rewrite (spiral_run n s Hlo Hhi). split; [|discriminate].
    left. split; [now split|]. now eexists.
Qed.

(** X5: spiral uses N only through N // 2, apart from the stored count:
    two requests with the same N // 2 (N = 2k and N = 2k + 1, say) give
    the same points and the same labels, or raise the same exception. *)
Theorem X5_spiral_depends_on_half n m s :
  n / 2 = m / 2 ->
  points_and_labels (fst (spiral n s)) = points_and_labels (fst (spiral m s)) /\
  snd (spiral n s) = snd (spiral m s).
Proof.
  intros Hnm.
  destruct (Z_lt_le_dec (n / 2) index_min) as [Hlo|Hlo];
    [|destruct (Z_lt_le_dec index_max (n / 2)) as [Hhi|Hhi]].
  - rewrite (spiral_index_overflow n s), (spiral_index_overflow m s)
      by (left; lia).
    now split.
  - rewrite (spiral_index_overflow n s), (spiral_index_overflow m s)
      by (right; lia).
    now split.
  - rewrite (spiral_run n s), (spiral_run m s) by lia.
    simpl. now rewrite Hnm.
Qed.

(** X6: with an index-sized N // 2 the spiral pairs points and labels by
    arm: for j < half, entry j is arm A's point for i = 5 + j with label
    0, and entry half + j is arm B's point for i = 5 + j with label 1;
    the two classes have half members each. *)
Theorem X6_spiral_pairs_points_with_labels n s :
  index_min <= n / 2 -> n / 2 <= index_max ->
  let half := Z.to_nat (n / 2) in
  exists g,
    spiral n s = (Ok g, s) /\
    (forall j, (j < half)%nat ->
       X g !! j = Some (arm_A (n / 2) (5 + Z.of_nat j)) /\
       y g !! j = Some 0 /\
       X g !! (half + j)%nat = Some (arm_B (n / 2) (5 + Z.of_nat j)) /\
       y g !! (half + j)%nat = Some 1) /\
    count_occ Z.eq_dec (y g) 0 = half /\
    count_occ Z.eq_dec (y g) 1 = half.
Proof.
  intros Hlo Hhi half.
  eexists. split; [apply (spiral_run n s Hlo Hhi)|]. simpl.
  assert (HA : length (map (arm_A (n / 2)) (range 5 (5 + n / 2))) = half).
  { rewrite length_map, range_length. subst half. f_equal. lia. }
  assert (H0 : length (repeat 0 (Z.to_nat (n / 2))) = half)
    by apply repeat_length.
  split; [|split].
  - intros j Hj.
    assert (Hr : range 5 (5 + n / 2) !! j = Some (5 + Z.of_nat j)).
    { apply range_lookup. subst half. now replace (5 + n / 2 - 5) with (n / 2) by lia. }
    repeat split.
    + rewrite lookup_app_l by lia. now rewrite list_lookup_fmap, Hr.
    + rewrite lookup_app_l by lia. now apply repeat_lookup.
    + rewrite lookup_app_r by lia.
      replace (half + j - _)%nat with j by lia.
      now rewrite list_lookup_fmap, Hr.
    + rewrite lookup_app_r by lia.
      replace (half + j - _)%nat with j by lia.
      now apply repeat_lookup.
  - rewrite count_occ_app.
    rewrite count_occ_repeat_eq, count_occ_repeat_neq by congruence. lia.
  - rewrite count_occ_app.
    rewrite count_occ_repeat_neq, count_occ_repeat_eq by congruence. lia.
Qed.

(** ** From a name to a dataset *)

Lemma generated_well_formed gen :
  In gen all_generators ->
  forall n s g s', gen n s = (Ok g, s') ->
    N g = n /\ length (X g) = length (y g) /\
    Forall (fun l => l = 0 \/ l = 1) (y g).
Proof.
  intros Hgen n s g s' Hrun.
  apply in_app_or in Hgen as [Hgen|[<-|[]]].
  - destruct (predicate_generators_table gen Hgen) as [pred Hpred].
    rewrite (predicate_table_run gen pred Hpred) in Hrun.
    injection Hrun as <- _. simpl. rewrite length_map.
    repeat split. apply List.Forall_forall. intros l Hl.
    apply in_map_iff in Hl as (p & <- & _). apply label_of_binary.
  - pose proof (spiral_ok_labels _ _ _ _ Hrun) as Hy.
    apply spiral_ok_shape in Hrun as (HN & HX & HY).
    split; [assumption|]. split; [lia|].
    rewrite Hy. apply Forall_app.
    split; apply List.Forall_forall; intros l Hl;
      apply repeat_spec in Hl; auto.
Qed.

(** X7: selecting by name and generating compose: every registered name
    looks up to one of the six generators, every generator is bound to
    a registered name, and whatever dataset a generator so obtained
    returns stores the requested N, has as many points as labels, and
    has labels 0 or 1 only. *)
Theorem X7_registry_generates :
  (forall name, In name registered_names ->
     exists gen,
       datasets_getitem name = Ok gen /\
       In gen all_generators /\
       forall n s g s', gen n s = (Ok g, s') ->
         N g = n /\ length (X g) = length (y g) /\
         Forall (fun l => l = 0 \/ l = 1) (y g)) /\
  (forall gen, In gen all_generators ->
     exists name, In name registered_names /\ datasets_getitem name = Ok gen).
Proof.
  split.
  - intros name Hname.
    assert (H : exists gen, datasets_getitem name = Ok gen /\ In gen all_generators).
    { unfold registered_names in Hname. simpl in Hname.
      destruct Hname as [<-|[<-|[<-|[<-|[<-|[<-|[]]]]]]];
        eexists; (split; [reflexivity|]);
        unfold all_generators, predicate_generators; simpl; auto 10. }
    destruct H as (gen & Hget & Hin).
    exists gen. split; [assumption|]. split; [assumption|].
    now apply generated_well_formed.
  - unfold all_generators, predicate_generators, registered_names. simpl.
    intros gen [<-|[<-|[<-|[<-|[<-|[<-|[]]]]]]].
    + exists "Simple"%string. split; [auto 10|reflexivity].
    + exists "Diag"%string. split; [auto 10|reflexivity].
    + exists "Split"%string. split; [auto 10|reflexivity].
    + exists "Xor"%string. split; [auto 10|reflexivity].
    + exists "Circle"%string. split; [auto 10|reflexivity].
    + exists "Spiral"%string. split; [auto 10|reflexivity].
Qed.

(** ** Batches and sizes *)

(** X8: generating in two batches is generating in one: for each of
    simple, diag, split, xor and circle and for a, b >= 0, a call with a
    followed by a call with b returns, concatenated, the points and the
    labels of one call with a + b, and leaves the random source in the
    same state. *)
Theorem X8_batches_concatenate a b s :
  0 <= a -> 0 <= b ->
  Forall
    (fun gen =>
       exists g1 s1 g2 s2 g,
         gen a s = (Ok g1, s1) /\
         gen b s1 = (Ok g2, s2) /\
         gen (a + b) s = (Ok g, s2) /\
         X g = X g1 ++ X g2 /\
         y g = y g1 ++ y g2)
    predicate_generators.
Proof.
  intros Ha Hb. apply List.Forall_forall. intros gen Hgen.
  destruct (predicate_generators_table gen Hgen) as [pred Hpred].
  pose proof (predicate_table_run gen pred Hpred) as Hrun.
  eexists _, _, _, _, _.
  split; [apply Hrun|]. split; [apply Hrun|].
  rewrite Hrun, Z2Nat.inj_add, sample_add by assumption. simpl.
  split; [reflexivity|]. split; [reflexivity|]. apply map_app.
Qed.

(** X9: whenever spiral(N) returns, the number of points is even, is at
    most max(N, 0), and is zero exactly when N < 2: a request for one
    point yields none. *)
Theorem X9_spiral_size n s g s' :
  spiral n s = (Ok g, s') ->
  Nat.Even (length (X g)) /\
  Z.of_nat (length (X g)) <= Z.max n 0 /\
  (X g = [] <-> n < 2).
Proof.
  intros Hrun. apply spiral_ok_shape in Hrun as (_ & HX & _).
  assert (Hdiv : n < 2 <-> n / 2 <= 0).
  { split; intros H.
    - assert (n / 2 < 1) by (apply Z.div_lt_upper_bound; lia). lia.
    - destruct (Z_lt_le_dec n 2) as [|Hge]; [assumption|].
      assert (1 <= n / 2) by (apply Z.div_le_lower_bound; lia). lia. }
  split; [exists (Z.to_nat (n / 2)); lia|]. split.
  - destruct (Z_lt_le_dec n 2) as [Hlt|Hge].
    + apply Hdiv in Hlt. lia.
    + assert (2 * (n / 2) <= n) by (apply Z.mul_div_le; lia). lia.
  - rewrite Hdiv. split; intros H.
    + rewrite H in HX. simpl in HX. lia.
    + apply length_zero_iff_nil. lia.
Qed.

End Generators.

(** ** Instances *)

Lemma C1_predicate_generators_shape_witness :
  (exists pts s',
      make_pts phase cycle_random 3 P0 = (Ok pts, s') /\
      Z.of_nat (length pts) = 3 /\ Forall in_unit_square pts) /\
  (forall gen, In gen (predicate_generators phase cycle_random) ->
     exists g s',
       gen 3 P0 = (Ok g, s') /\
       Z.of_nat (length (X g)) = 3 /\
       Z.of_nat (length (y g)) = 3 /\
       Forall (fun l => l = 0 \/ l = 1) (y g) /\
       Forall in_unit_square (X g)).
Proof.
  apply (C1_predicate_generators_shape phase cycle_random).
  - intros [| |]; split; reflexivity.
  - lia.
Defined.

Lemma C2_labels_follow_table_witness :
  exists g s',
    circle phase cycle_random 3 P0 = (Ok g, s') /\
    y g = [0; 1; 0] /\
    map (label_of circle_pred) (X g) = y g.
Proof.
  pose proof (C2_labels_follow_table phase cycle_random 3 P0) as H.
  unfold predicate_table in H.
  do 4 apply Forall_inv_tail in H. apply Forall_inv in H.
  destruct H as (g & s' & Hrun & _ & _ & Hmap).
  exists g, s'. split; [exact Hrun|].
  vm_compute in Hrun. injection Hrun as <- _.
  split; [reflexivity|exact Hmap].
Defined.

(** The claim of C3 without a bound on N fails: for N = 2^1025 the
    divisor N // 2 = 2^1024 cannot be converted to [float], and the
    first element of the first arm raises. *)
Lemma C3_spiral_overflow_counterexample :
  0 <= 2 ^ 1025 /\
  spiral phase poly_cos poly_sin (2 ^ 1025) P0 = (Raise OverflowError, P0) /\
  ~ (exists g s',
        spiral phase poly_cos poly_sin (2 ^ 1025) P0 = (Ok g, s') /\
        Z.of_nat (length (X g)) = 2 * (2 ^ 1025 / 2)).
Proof.
  assert (H : spiral phase poly_cos poly_sin (2 ^ 1025) P0
              = (Raise OverflowError, P0)).
  { apply spiral_overflow; apply Z.leb_le; vm_compute; reflexivity. }
  split; [apply Z.leb_le; vm_compute; reflexivity|].
  split; [exact H|].
  intros (g & s' & Hrun & _). rewrite H in Hrun. discriminate.
Qed.

Lemma C3_spiral_arms_witness :
  exists g,
    spiral phase poly_cos poly_sin 11 P0 = (Ok g, P0) /\
    take 5 (X g) = map (arm_A poly_cos poly_sin 5) (range 5 10) /\
    drop 5 (X g) = map (arm_B poly_cos poly_sin 5) (range 5 10) /\
    y g = [0; 0; 0; 0; 0; 1; 1; 1; 1; 1] /\
    Z.of_nat (length (X g)) = 10 /\
    Z.of_nat (length (y g)) = 10.
Proof.
  refine (proj1 (C3_spiral_arms phase poly_cos poly_sin) 11 P0 _ _).
  - lia.
  - apply Z.leb_le. vm_compute. reflexivity.
Defined.

(** The claim of C4 without N >= 0 fails: simple(-1) returns no point
    and no label, and stores the count -1. *)
Lemma C4_negative_count_counterexample :
  exists g s',
    simple phase cycle_random (-1) P0 = (Ok g, s') /\
    length (X g) = length (y g) /\
    Z.of_nat (length (X g)) <> N g.
Proof.
  eexists _, _. split; [reflexivity|]. simpl. split; [reflexivity|lia].
Qed.

Lemma C4_count_invariant_witness :
  exists g,
    spiral phase poly_cos poly_sin 11 P0 = (Ok g, P0) /\
    N g = 11 /\ length (X g) = length (y g) /\
    Z.of_nat (length (X g)) = 2 * (11 / 2) /\
    N g = Z.of_nat (length (X g)) + 1.
Proof.
  destruct (C4_count_invariant phase cycle_random poly_cos poly_sin 11 P0)
    as [Hall Hnonneg].
  destruct (Hnonneg ltac:(lia)) as [_ Hspiral].
  eexists. split; [vm_compute; reflexivity|].
  edestruct Hall as [HN Hlen];
    [unfold all_generators; apply in_or_app; right; left; reflexivity
    |vm_compute; reflexivity|].
  edestruct Hspiral as [Hsize Hodd]; [vm_compute; reflexivity|].
  split; [exact HN|]. split; [exact Hlen|]. split; [exact Hsize|].
  exact (Hodd eq_refl).
Defined.

Lemma C5_registry_witness :
  datasets_getitem phase cycle_random poly_cos poly_sin "Unknown"
  = Raise KeyError.
Proof.
  destruct (C5_registry phase cycle_random poly_cos poly_sin)
    as (_ & _ & _ & _ & _ & _ & _ & Hother & _).
  apply Hother. unfold registered_names. intros H.
  repeat (apply elem_of_cons in H as [H|H]; [discriminate|]).
  now apply elem_of_nil in H.
Defined.

(** The claim of C8 fails for spiral below the index-sized integers:
    for N = -2^64 - 1 the count N // 2 = -2^63 - 1 of the first list
    repetition does not fit, and spiral raises. *)
Lemma C8_spiral_index_overflow_counterexample :
  - 2 ^ 64 - 1 < 0 /\
  (- 2 ^ 64 - 1) / 2 = index_min - 1 /\
  spiral phase poly_cos poly_sin (- 2 ^ 64 - 1) P0 = (Raise OverflowError, P0) /\
  ~ (exists g s',
        spiral phase poly_cos poly_sin (- 2 ^ 64 - 1) P0 = (Ok g, s')).
Proof.
  assert (H : spiral phase poly_cos poly_sin (- 2 ^ 64 - 1) P0
              = (Raise OverflowError, P0)).
  { apply spiral_index_overflow. left. apply Z.ltb_lt. vm_compute. reflexivity. }
  split; [apply Z.ltb_lt; vm_compute; reflexivity|].
  split; [vm_compute; reflexivity|].
  split; [exact H|].
  intros (g & s' & Hrun). rewrite H in Hrun. discriminate.
Qed.

Lemma C8_negative_is_empty_witness :
  Forall (fun gen => gen (-3) P0 = (Ok (mkGraph (-3) [] []), P0))
         (predicate_generators phase cycle_random) /\
  spiral phase poly_cos poly_sin (-3) P0 = (Ok (mkGraph (-3) [] []), P0) /\
  -3 / 2 < 0 /\ range (5 + 0) (5 + -3 / 2) = [] /\
  list_mul 0 (-3 / 2) = Ok [] /\ list_mul 1 (-3 / 2) = Ok [].
Proof.
  destruct (C8_negative_is_empty phase cycle_random poly_cos poly_sin (-3) P0)
    as (Hfive & Hspiral & _ & Hhalf & Hrange & Hmul); [lia|].
  assert (Hlo : index_min <= -3 / 2)
    by (apply Z.leb_le; vm_compute; reflexivity).
  split; [exact Hfive|]. split; [exact (Hspiral Hlo)|].
  split; [exact Hhalf|]. split; [exact Hrange|]. exact (Hmul Hlo).
Defined.

(** The first point the cycle generator gives to circle lies exactly on
    the circle, and its label is 0. *)
Lemma C10_boundary_points_get_zero_witness :
  exists g s',
    circle phase cycle_random 1 P0 = (Ok g, s') /\
    X g !! 0%nat = Some (circle_edge, 0.5%float) /\
    py_eq (sq_dist (circle_edge, 0.5%float)) 0.1 /\
    y g !! 0%nat = Some 0.
Proof.
  pose proof (C10_boundary_points_get_zero phase cycle_random 1 P0) as H.
  unfold boundary_table in H.
  do 4 apply Forall_inv_tail in H. apply Forall_inv in H.
  destruct H as (g & s' & Hrun & Hzero).
  assert (HX : X g !! 0%nat = Some (circle_edge, 0.5%float)).
  { vm_compute in Hrun. injection Hrun as <- _. reflexivity. }
  assert (Hon : py_eq (sq_dist (circle_edge, 0.5%float)) 0.1)
    by (vm_compute; reflexivity).
  exists g, s'.
  split; [exact Hrun|]. split; [exact HX|]. split; [exact Hon|].
  exact (Hzero 0%nat _ HX Hon).
Defined.

Lemma X3_make_pts_additive_witness :
  exists pa s1 pb s2,
    make_pts phase cycle_random 2 P0 = (Ok pa, s1) /\
    make_pts phase cycle_random 1 s1 = (Ok pb, s2) /\
    make_pts phase cycle_random (2 + 1) P0 = (Ok (pa ++ pb), s2).
Proof.
  apply (X3_make_pts_additive phase cycle_random 2 1 P0); lia.
Defined.

Lemma X5_spiral_depends_on_half_witness :
  points_and_labels (fst (spiral phase poly_cos poly_sin 10 P0))
  = points_and_labels (fst (spiral phase poly_cos poly_sin 11 P0)) /\
  snd (spiral phase poly_cos poly_sin 10 P0)
  = snd (spiral phase poly_cos poly_sin 11 P0).
Proof.
  apply (X5_spiral_depends_on_half phase poly_cos poly_sin 10 11 P0).
  reflexivity.
Defined.

Lemma X6_spiral_pairs_points_with_labels_witness :
  exists g,
    spiral phase poly_cos poly_sin 4 P0 = (Ok g, P0) /\
    (forall j, (j < 2)%nat ->
       X g !! j = Some (arm_A poly_cos poly_sin 2 (5 + Z.of_nat j)) /\
       y g !! j = Some 0 /\
       X g !! (2 + j)%nat = Some (arm_B poly_cos poly_sin 2 (5 + Z.of_nat j)) /\
       y g !! (2 + j)%nat = Some 1) /\
    count_occ Z.eq_dec (y g) 0 = 2%nat /\
    count_occ Z.eq_dec (y g) 1 = 2%nat.
Proof.
  apply (X6_spiral_pairs_points_with_labels phase poly_cos poly_sin 4 P0);
    apply Z.leb_le; vm_compute; reflexivity.
Defined.

Lemma X7_registry_generates_witness :
  exists gen,
    datasets_getitem phase cycle_random poly_cos poly_sin "Spiral" = Ok gen /\
    In gen (all_generators phase cycle_random poly_cos poly_sin) /\
    forall n s g s', gen n s = (Ok g, s') ->
      N g = n /\ length (X g) = length (y g) /\
      Forall (fun l => l = 0 \/ l = 1) (y g).
Proof.
  apply (proj1 (X7_registry_generates phase cycle_random poly_cos poly_sin)).
  unfold registered_names. simpl. auto 10.
Defined.

Lemma X8_batches_concatenate_witness :
  Forall
    (fun gen =>
       exists g1 s1 g2 s2 g,
         gen 2 P0 = (Ok g1, s1) /\
         gen 1 s1 = (Ok g2, s2) /\
         gen (2 + 1) P0 = (Ok g, s2) /\
         X g = X g1 ++ X g2 /\
         y g = y g1 ++ y g2)
    (predicate_generators phase cycle_random).
Proof.
  apply (X8_batches_concatenate phase cycle_random 2 1 P0); lia.
Defined.

Lemma X9_spiral_size_witness :
  exists g,
    spiral phase poly_cos poly_sin 5 P0 = (Ok g, P0) /\
    Nat.Even (length (X g)) /\
    Z.of_nat (length (X g)) <= Z.max 5 0 /\
    (X g = [] <-> 5 < 2).
Proof.
  eexists. split; [vm_compute; reflexivity|].
  apply (X9_spiral_size phase poly_cos poly_sin 5 P0 _ P0).
  vm_compute. reflexivity.
Defined.

End Datasets.
